(** * The requires side of the OpenStack integration interface

    A shallow embedding of [requires.py]: the endpoint class
    [OpenStackIntegrationRequires], its two accessors ([credentials],
    [is_ready]) and its two reactive handlers ([check_ready],
    [remove_ready]), over the flag store and the relation data that the
    hosting reactive framework exposes. *)

From stdpp Require Import gmap strings list relations.

#[local] Set Warnings "-clear-no-such-hyp".

Local Open Scope string_scope.

(** ** Python values *)

(** What [json.loads] can hand back from relation data, plus [None].
    Numbers are kept as integers. *)
#[warnings="-register-all"]
Inductive Value : Type :=
  | VNone
  | VBool (b : bool)
  | VInt (z : Z)
  | VStr (s : string)
  | VList (l : list Value)
  | VDict (d : list (string * Value)).

(** Python's [bool(v)]: [None], [False], [0] and every empty container are
    falsy, everything else is truthy. *)
Definition py_bool (v : Value) : bool :=
  match v with
  | VNone => false
  | VBool b => b
  | VInt z => negb (z =? 0)%Z
  | VStr s => negb (String.eqb s "")
  | VList l => match l with [] => false | _ :: _ => true end
  | VDict d => match d with [] => false | _ :: _ => true end
  end.

(** ** The data the framework exposes *)

(** [relation.joined_units]: the combined view of the units of one relation;
    [received] is its decoded key-value data. *)
Record CombinedUnitsView : Type := mkUnits {
  received : gmap string Value
}.

Record Relation : Type := mkRelation {
  joined_units : CombinedUnitsView;
  to_publish : gmap string Value
}.

(** The endpoint object together with the process-wide flag store:
    [self.endpoint_name], [self.relations] (a Python list) and the set of
    flags that are currently set. *)
Record State : Type := mkState {
  endpoint_name : string;
  relations : list Relation;
  flags : gset string
}.

Definition with_flags (fl : gset string) (st : State) : State :=
  {| endpoint_name := endpoint_name st;
     relations := relations st;
     flags := fl |}.

Definition with_relations (rs : list Relation) (st : State) : State :=
  {| endpoint_name := endpoint_name st;
     relations := rs;
     flags := flags st |}.

(** ** Effects: state and exceptions *)

Inductive Exn : Type :=
  | IndexError.

Inductive Outcome (A : Type) : Type :=
  | Ok (a : A)
  | Raise (e : Exn).
Arguments Ok {A} a.
Arguments Raise {A} e.

(** A computation returns or raises, and in both cases leaves the store as
    it was when it stopped. *)
Definition M (A : Type) : Type := State → Outcome A * State.

Definition ret {A} (a : A) : M A := λ st, (Ok a, st).

Definition raise {A} (e : Exn) : M A := λ st, (Raise e, st).

Definition bind {A B} (c : M A) (k : A → M B) : M B :=
  λ st, match c st with
        | (Ok a, st') => k a st'
        | (Raise e, st') => (Raise e, st')
        end.

#[global] Instance M_ret : MRet M := @ret.
#[global] Instance M_bind : MBind M := λ A B k c, bind c k.

Definition result {A} (c : M A) (st : State) : Outcome A := fst (c st).
Definition store {A} (c : M A) (st : State) : State := snd (c st).

(** ** Framework primitives used by the class *)

(** Modelled from the spec: the flag helpers of the reactive framework, which
    this repository imports but does not hold.  Flags are named booleans,
    namespaced per endpoint name as [endpoint.{name}.{flag}]. *)
Definition flag_name (st : State) (flag : string) : string :=
  "endpoint." +:+ endpoint_name st +:+ "." +:+ flag.

(** Modelled from the spec: [self.expand_name(flag)] of the framework's
    endpoint class, on a short flag name. *)
Definition expand_name (flag : string) : M string :=
  λ st, (Ok (flag_name st flag), st).

(** Modelled from the spec: [set_flag] and [clear_flag] of the framework;
    both are idempotent and touch the named flag only. *)
Definition set_flag (flag : string) : M unit :=
  λ st, (Ok tt, with_flags ({[flag]} ∪ flags st) st).

Definition clear_flag (flag : string) : M unit :=
  λ st, (Ok tt, with_flags (flags st ∖ {[flag]}) st).

(** Modelled from the spec: [toggle_flag(flag, should_set)] of the
    framework sets the flag if the value is true and clears it if false. *)
Definition toggle_flag (flag : string) (should_set : bool) : M unit :=
  if should_set then set_flag flag else clear_flag flag.

Definition is_flag_set (flag : string) (st : State) : bool :=
  bool_decide (flag ∈ flags st).

(** [self.relations] *)
Definition get_relations : M (list Relation) :=
  λ st, (Ok (relations st), st).

(** [lst[i]] on a Python list, for a non-negative index: the element, or
    [IndexError] when the index is out of range. *)
Definition py_index {A} (l : list A) (i : nat) : M A :=
  match l !! i with
  | Some a => ret a
  | None => raise IndexError
  end.

(** Modelled from the spec: [view[key]] on the framework's received data
    view, where an absent key reads as an absent value ([None]) and is no
    fault. *)
Definition getitem (d : gmap string Value) (key : string) : Value :=
  default VNone (d !! key).

(** ** The class [OpenStackIntegrationRequires] *)

(** [self.relations[0].joined_units.received] *)
Definition _received : M (gmap string Value) :=
  rs ← get_relations ;
  r ← py_index rs 0 ;
  mret (received (joined_units r)).

(** [self._received['credentials']] *)
Definition credentials : M Value :=
  rcv ← _received ;
  mret (getitem rcv "credentials").

(** [bool(self.credentials)] *)
Definition is_ready : M bool :=
  c ← credentials ;
  mret (py_bool c).

(** [self.relations[0].to_publish] *)
Definition _to_publish : M (gmap string Value) :=
  rs ← get_relations ;
  r ← py_index rs 0 ;
  mret (to_publish r).

(** The handler under [@when('endpoint.{endpoint_name}.changed')].  Python
    evaluates the two arguments of [toggle_flag] before the call, the flag
    name first. *)
Definition check_ready : M unit :=
  ready ← expand_name "ready" ;
  b ← is_ready ;
  toggle_flag ready b ;;
  changed ← expand_name "changed" ;
  clear_flag changed.

(** The handler under [@when_not('endpoint.{endpoint_name}.joined')]. *)
Definition remove_ready : M unit :=
  ready ← expand_name "ready" ;
  clear_flag ready.

(** The predicates the two decorators register: [when] holds if the flag
    is set, [when_not] if it is not. *)
Definition when_changed (st : State) : bool :=
  is_flag_set (flag_name st "changed") st.

Definition when_not_joined (st : State) : bool :=
  negb (is_flag_set (flag_name st "joined") st).

(** ** The reactive loop around the class *)

Inductive Handler : Type :=
  | CheckReady
  | RemoveReady.

(** The decorator of each handler, read on the current flags. *)
Definition guard (h : Handler) (st : State) : bool :=
  match h with
  | CheckReady => when_changed st
  | RemoveReady => when_not_joined st
  end.

Definition invoke (h : Handler) : M unit :=
  match h with
  | CheckReady => check_ready
  | RemoveReady => remove_ready
  end.

(** Modelled from the spec: the signals of the hosting framework, which is
    not part of this repository.  The framework owns the joined flag (set
    when a relation connects, cleared when it disconnects) and raises the
    changed flag when relation data changes while joined; each signal comes
    with the relation list as the endpoint then sees it.  After a break the
    list may still hold stale data. *)
Inductive Event : Type :=
  | RelationEstablished (rs : list Relation)
  | DataChanged (rs : list Relation)
  | RelationBroken (rs : list Relation).

(** Modelled from the spec: a signal of connection or of changed data comes
    with at least one relation, and data changes are signalled while
    joined. *)
Definition event_enabled (ev : Event) (st : State) : bool :=
  match ev with
  | RelationEstablished rs => bool_decide (rs ≠ [])
  | DataChanged rs =>
      bool_decide (rs ≠ []) && is_flag_set (flag_name st "joined") st
  | RelationBroken _ => true
  end.

(** Modelled from the spec: what the framework does to the flags and to the
    relation list before it dispatches. *)
Definition apply_event (ev : Event) (st : State) : State :=
  match ev with
  | RelationEstablished rs =>
      with_flags ({[flag_name st "joined"]} ∪ flags st) (with_relations rs st)
  | DataChanged rs =>
      with_flags ({[flag_name st "changed"]} ∪ flags st) (with_relations rs st)
  | RelationBroken rs =>
      with_flags (flags st ∖ {[flag_name st "joined"]}) (with_relations rs st)
  end.

(** Modelled from the spec: dispatch is serialized, every handler runs to
    completion before the next one, and a handler is called when its
    decorator holds at its turn. *)
Definition run_if (h : Handler) : M unit :=
  λ st, if guard h st then invoke h st else (Ok tt, st).

Fixpoint run_handlers (hs : list Handler) : M unit :=
  match hs with
  | [] => mret tt
  | h :: hs' => run_if h;; run_handlers hs'
  end.

(** Modelled from the spec: one step is an external signal followed by the
    dispatch of both handlers, in either order, to completion.  A dispatch
    in which a handler raises yields no next state. *)
Inductive step : State → State → Prop :=
  | step_hook (ev : Event) (hs : list Handler) (st st' : State) :
      event_enabled ev st = true →
      hs ≡ₚ [CheckReady; RemoveReady] →
      run_handlers hs (apply_event ev st) = (Ok tt, st') →
      step st st'.

(** The start: unjoined, no flag set, no relation. *)
Definition init (ep : string) : State := mkState ep [] ∅.

Definition reachable (ep : string) (st : State) : Prop :=
  rtc step (init ep) st.

(** No handler is left to run and readiness does not outlive the join. *)
Definition settled (st : State) : Prop :=
  (flag_name st "changed" ∉ flags st) ∧
  (flag_name st "joined" ∉ flags st → flag_name st "ready" ∉ flags st).

(** The state after one hook: the signal, then the dispatch. *)
Definition hook (ev : Event) (hs : list Handler) (st : State) : State :=
  snd (run_handlers hs (apply_event ev st)).

(** ** Sample states *)

Definition creds_tok : gmap string Value := {["credentials" := VStr "tok-123"]}.

Definition rel_tok : Relation := mkRelation (mkUnits creds_tok) ∅.
Definition rel_empty : Relation := mkRelation (mkUnits ∅) ∅.

Definition st_no_relation : State := mkState "openstack" [] ∅.

Definition st_changed_no_relation : State :=
  mkState "openstack" [] {["endpoint.openstack.changed"]}.

Definition st_changed_tok : State :=
  mkState "openstack" [rel_tok]
    {["endpoint.openstack.joined"; "endpoint.openstack.changed"]}.

Definition st_stale_ready : State :=
  mkState "openstack" [rel_tok] {["endpoint.openstack.ready"]}.

(** A life cycle: the relation connects with no data yet, the counterpart
    sends credentials, the relation breaks and leaves stale data behind. *)
Definition trace_joined : State :=
  hook (RelationEstablished [rel_empty]) [CheckReady; RemoveReady]
    (init "openstack").

Definition trace_ready : State :=
  hook (DataChanged [rel_tok]) [CheckReady; RemoveReady] trace_joined.

Definition trace_broken : State :=
  hook (RelationBroken [rel_tok]) [RemoveReady; CheckReady] trace_ready.

Definition outcome_map {A B} (f : A → B) (o : Outcome A) : Outcome B :=
  match o with
  | Ok a => Ok (f a)
  | Raise e => Raise e
  end.

(** Direct calls of the handlers one after the other, outside any dispatch;
    as in Python, a call that raises ends the sequence. *)
Fixpoint call_all (hs : list Handler) : M unit :=
  match hs with
  | [] => mret tt
  | h :: hs' => invoke h;; call_all hs'
  end.

(** What one or more handler calls may do to a store: the endpoint and its
    relations stay, no flag but the ready flag appears, and no flag but the
    ready and the changed flag disappears. *)
Definition framed (st st' : State) : Prop :=
  endpoint_name st' = endpoint_name st ∧
  relations st' = relations st ∧
  flags st' ⊆ {[flag_name st "ready"]} ∪ flags st ∧
  flags st ∖ {[flag_name st "ready"; flag_name st "changed"]} ⊆ flags st'.

(** The ready flag is honest: if it is set, [is_ready] returns true. *)
Definition honest (st : State) : Prop :=
  flag_name st "ready" ∈ flags st → result is_ready st = Ok true.

(** * Properties *)

(** ** How the methods run *)

Lemma _received_run (st : State) :
  _received st =
    match relations st with
    | [] => (Raise IndexError, st)
    | r :: _ => (Ok (received (joined_units r)), st)
    end.
Proof.
  unfold _received. cbv [mbind M_bind bind get_relations py_index].
  by destruct (relations st).
Qed.

Lemma credentials_run (st : State) :
  credentials st =
    match relations st with
    | [] => (Raise IndexError, st)
    | r :: _ => (Ok (getitem (received (joined_units r)) "credentials"), st)
    end.
Proof.
  unfold credentials. cbv [mbind M_bind bind]. rewrite _received_run.
  by destruct (relations st).
Qed.

Lemma is_ready_run (st : State) :
  is_ready st =
    match relations st with
    | [] => (Raise IndexError, st)
    | r :: _ =>
        (Ok (py_bool (getitem (received (joined_units r)) "credentials")), st)
    end.
Proof.
  unfold is_ready. cbv [mbind M_bind bind]. rewrite credentials_run.
  by destruct (relations st).
Qed.

Lemma check_ready_run (st : State) :
  check_ready st =
    match relations st with
    | [] => (Raise IndexError, st)
    | r :: _ =>
        let ready := flag_name st "ready" in
        let fl :=
          if py_bool (getitem (received (joined_units r)) "credentials")
          then {[ready]} ∪ flags st
          else flags st ∖ {[ready]} in
        (Ok tt, with_flags (fl ∖ {[flag_name st "changed"]}) st)
    end.
Proof.
  unfold check_ready. cbv [mbind M_bind bind expand_name].
  rewrite is_ready_run. destruct (relations st) as [|r rs]; [done|].
  by destruct (py_bool _).
Qed.

Lemma remove_ready_run (st : State) :
  remove_ready st =
    (Ok tt, with_flags (flags st ∖ {[flag_name st "ready"]}) st).
Proof. done. Qed.

(** ** Flag names *)

Lemma flag_name_inj (st : State) (f g : string) :
  flag_name st f = flag_name st g → f = g.
Proof.
  unfold flag_name. intros H.
  apply (inj (String.app "endpoint.")) in H.
  apply (inj (String.app (endpoint_name st))) in H.
  by apply (inj (String.app ".")) in H.
Qed.

Lemma ready_changed_ne (st : State) :
  flag_name st "ready" ≠ flag_name st "changed".
Proof. intros H. by apply flag_name_inj in H. Qed.

Lemma ready_joined_ne (st : State) :
  flag_name st "ready" ≠ flag_name st "joined".
Proof. intros H. by apply flag_name_inj in H. Qed.

Lemma changed_joined_ne (st : State) :
  flag_name st "changed" ≠ flag_name st "joined".
Proof. intros H. by apply flag_name_inj in H. Qed.

(** ** The accessors *)

Lemma accessors_keep_store (st : State) :
  store credentials st = st ∧ store is_ready st = st.
Proof.
  unfold store. rewrite credentials_run, is_ready_run.
  by destruct (relations st).
Qed.

(** C1, as the spec has it, fails without a relation: [is_ready] does not
    return false there, the lookup [self.relations[0]] raises. *)
Lemma is_ready_no_relation_raises :
  relations st_no_relation = [] ∧
  result is_ready st_no_relation = Raise IndexError ∧
  result is_ready st_no_relation ≠ Ok false.
Proof. by vm_compute. Qed.

(** C1 (amended): [is_ready] returns true exactly when a relation exists and
    the received value under ["credentials"] of the first relation is present
    and truthy; with a relation it returns false in every other case; without
    a relation it raises [IndexError]; it never changes the store. *)
Theorem is_ready_spec (st : State) :
  (result is_ready st = Ok true ↔
     ∃ r v, relations st !! 0 = Some r ∧
            received (joined_units r) !! "credentials" = Some v ∧
            py_bool v = true) ∧
  (relations st ≠ [] → ∃ b, result is_ready st = Ok b) ∧
  (relations st = [] → result is_ready st = Raise IndexError) ∧
  store is_ready st = st.
Proof.
  unfold result, store. rewrite is_ready_run.
  destruct (relations st) as [|r rs]; simpl.
  - split_and!; [|done|done|done].
    split; [done|]. by intros (r & v & ? & _).
  - split_and!; [|by eauto|done|done].
    unfold getitem. split.
    + intros [= Hb]. exists r.
      destruct (received (joined_units r) !! "credentials") as [v|]; [|done].
      by exists v.
    + intros (r' & v & [= <-] & -> & Hv). simpl. by rewrite Hv.
Qed.

(** C2, as the spec has it, fails without a relation: [credentials] raises
    instead of returning an empty value. *)
Lemma credentials_no_relation_raises :
  relations st_no_relation = [] ∧
  result credentials st_no_relation = Raise IndexError ∧
  ∀ v, result credentials st_no_relation ≠ Ok v.
Proof. by vm_compute. Qed.

(** C2 (amended): with a relation, [credentials] returns the value under
    ["credentials"] in the first relation's received data, and [None] when
    the key is absent; without a relation it raises [IndexError]. *)
Theorem credentials_spec (st : State) :
  (∀ r v, relations st !! 0 = Some r →
          received (joined_units r) !! "credentials" = Some v →
          result credentials st = Ok v) ∧
  (∀ r, relations st !! 0 = Some r →
        received (joined_units r) !! "credentials" = None →
        result credentials st = Ok VNone) ∧
  (relations st = [] → result credentials st = Raise IndexError) ∧
  store credentials st = st.
Proof.
  unfold result, store. rewrite credentials_run.
  destruct (relations st) as [|r rs]; simpl; [done|].
  unfold getitem. split_and!; [| |done|done].
  - by intros r' v [= <-] ->.
  - by intros r' [= <-] ->.
Qed.

(** C8: [is_ready] is the truthiness of [credentials]: where [credentials]
    returns a value, [is_ready] returns its [bool]; where it raises,
    [is_ready] raises the same; so [is_ready] is true exactly when
    [credentials] returns a truthy value. *)
Theorem is_ready_is_bool_of_credentials (st : State) :
  result is_ready st = outcome_map py_bool (result credentials st) ∧
  (result is_ready st = Ok true ↔
     ∃ c, result credentials st = Ok c ∧ py_bool c = true) ∧
  (result is_ready st = Ok false ↔
     ∃ c, result credentials st = Ok c ∧ py_bool c = false).
Proof.
  unfold result. rewrite is_ready_run, credentials_run.
  destruct (relations st) as [|r rs]; simpl.
  - split_and!; [done| |]; (split; [done|by intros (c & ? & _)]).
  - split_and!; [done| |].
    + split; [intros [= Hb]; eauto|]. by intros (c & [= <-] & ->).
    + split; [intros [= Hb]; eauto|]. by intros (c & [= <-] & ->).
Qed.

(** C10: both accessors consult the relation at index 0 only: whatever the
    other relations of the list hold, the results are those of the first. *)
Theorem accessors_use_first_relation
    (ep : string) (fl : gset string) (r : Relation) (rest rest' : list Relation) :
  result credentials (mkState ep (r :: rest) fl) =
    result credentials (mkState ep (r :: rest') fl) ∧
  result is_ready (mkState ep (r :: rest) fl) =
    result is_ready (mkState ep (r :: rest') fl) ∧
  result credentials (mkState ep (r :: rest) fl) =
    Ok (getitem (received (joined_units r)) "credentials") ∧
  result is_ready (mkState ep (r :: rest) fl) =
    Ok (py_bool (getitem (received (joined_units r)) "credentials")).
Proof. unfold result. by rewrite !is_ready_run, !credentials_run. Qed.

(** The scenarios of the spec on the sample states. *)
Example is_ready_without_credentials_key :
  result is_ready (mkState "openstack" [rel_empty] ∅) = Ok false ∧
  result credentials (mkState "openstack" [rel_empty] ∅) = Ok VNone.
Proof. by vm_compute. Qed.

Example credentials_tok :
  result credentials st_changed_tok = Ok (VStr "tok-123") ∧
  result is_ready st_changed_tok = Ok true.
Proof. by vm_compute. Qed.

Example is_ready_empty_string :
  result is_ready
    (mkState "openstack"
       [mkRelation (mkUnits {["credentials" := VStr ""]}) ∅] ∅) = Ok false.
Proof. by vm_compute. Qed.

(** ** The handlers *)

Lemma is_flag_set_with_flags (f : string) (fl : gset string) (st : State) :
  is_flag_set f (with_flags fl st) = bool_decide (f ∈ fl).
Proof. done. Qed.

Lemma flag_name_with_flags (fl : gset string) (st : State) (f : string) :
  flag_name (with_flags fl st) f = flag_name st f.
Proof. done. Qed.

Lemma check_ready_store_relations (st : State) :
  relations (store check_ready st) = relations st ∧
  endpoint_name (store check_ready st) = endpoint_name st.
Proof.
  unfold store. rewrite check_ready_run.
  by destruct (relations st) eqn:Hrs.
Qed.

(** Running the handler a second time changes nothing more. *)
Lemma check_ready_store_idem (st : State) :
  store check_ready (store check_ready st) = store check_ready st.
Proof.
  pose proof (ready_changed_ne st) as Hne.
  unfold store at 2 3. rewrite check_ready_run.
  destruct (relations st) as [|r rs] eqn:Hrs; simpl.
  - unfold store. rewrite check_ready_run, Hrs. done.
  - unfold store. rewrite check_ready_run. simpl. rewrite Hrs.
    rewrite !flag_name_with_flags. unfold with_flags; simpl. f_equal.
    destruct (py_bool _); set_solver.
Qed.

(** C3, as the spec has it, fails without a relation: the handler stops at
    [self.relations[0]] and the changed flag stays set. *)
Lemma check_ready_no_relation_keeps_changed :
  when_changed st_changed_no_relation = true ∧
  result check_ready st_changed_no_relation = Raise IndexError ∧
  when_changed (store check_ready st_changed_no_relation) = true.
Proof. by vm_compute. Qed.

(** C3 (amended): in a state where the changed flag is set and a relation
    exists, [check_ready] returns normally, leaves the ready flag set exactly
    when [is_ready] is true in that state, leaves the changed flag cleared,
    and touches no other flag and no relation data. *)
Theorem check_ready_effect (st : State) :
  when_changed st = true →
  relations st ≠ [] →
  ∃ b, result is_ready st = Ok b ∧
       result check_ready st = Ok tt ∧
       is_flag_set (flag_name st "ready") (store check_ready st) = b ∧
       is_flag_set (flag_name st "changed") (store check_ready st) = false ∧
       relations (store check_ready st) = relations st ∧
       ∀ f, f ≠ flag_name st "ready" → f ≠ flag_name st "changed" →
            is_flag_set f (store check_ready st) = is_flag_set f st.
Proof.
  intros _ Hrel. pose proof (ready_changed_ne st) as Hne.
  unfold result, store. rewrite is_ready_run, check_ready_run.
  destruct (relations st) as [|r rs] eqn:Hrs; [done|]. simpl.
  set (b := py_bool _). exists b. split_and!; [done|done| |..|done|].
  - rewrite is_flag_set_with_flags. destruct b.
    + apply bool_decide_eq_true. set_solver.
    + apply bool_decide_eq_false. set_solver.
  - rewrite is_flag_set_with_flags. apply bool_decide_eq_false. set_solver.
  - intros f Hr Hc. rewrite is_flag_set_with_flags. unfold is_flag_set.
    apply bool_decide_ext. destruct b; set_solver.
Qed.

Lemma check_ready_effect_witness :
  when_changed st_changed_tok = true ∧
  relations st_changed_tok ≠ [] ∧
  ∃ b, result is_ready st_changed_tok = Ok b ∧
       result check_ready st_changed_tok = Ok tt ∧
       is_flag_set (flag_name st_changed_tok "ready")
         (store check_ready st_changed_tok) = b ∧
       is_flag_set (flag_name st_changed_tok "changed")
         (store check_ready st_changed_tok) = false ∧
       relations (store check_ready st_changed_tok) = relations st_changed_tok ∧
       ∀ f, f ≠ flag_name st_changed_tok "ready" →
            f ≠ flag_name st_changed_tok "changed" →
            is_flag_set f (store check_ready st_changed_tok) =
              is_flag_set f st_changed_tok.
Proof.
  split; [reflexivity|]. split; [discriminate|].
  apply (check_ready_effect st_changed_tok); [reflexivity|discriminate].
Defined.

(** C5: whatever the state before, [remove_ready] returns normally and
    leaves the ready flag cleared. *)
Theorem remove_ready_clears_ready (st : State) :
  result remove_ready st = Ok tt ∧
  is_flag_set (flag_name st "ready") (store remove_ready st) = false ∧
  flag_name st "ready" ∉ flags (store remove_ready st).
Proof.
  unfold result, store. rewrite remove_ready_run. simpl.
  split_and!; [done| |set_solver].
  rewrite is_flag_set_with_flags. apply bool_decide_eq_false. set_solver.
Qed.

Example check_ready_tok :
  result check_ready st_changed_tok = Ok tt ∧
  flags (store check_ready st_changed_tok) =
    {["endpoint.openstack.joined"; "endpoint.openstack.ready"]}.
Proof. by vm_compute. Qed.

Example remove_ready_stale :
  result credentials st_stale_ready = Ok (VStr "tok-123") ∧
  is_flag_set "endpoint.openstack.ready" st_stale_ready = true ∧
  is_flag_set "endpoint.openstack.ready" (store remove_ready st_stale_ready) = false.
Proof. by vm_compute. Qed.

(** C6, as the spec has it, fails without a relation: the handler raises. *)
Lemma check_ready_no_relation_raises :
  relations st_changed_no_relation = [] ∧
  result check_ready st_changed_no_relation ≠ Ok tt.
Proof. by vm_compute. Qed.

(** C6 (amended): [check_ready] returns normally in every state that has a
    relation; without one it raises [IndexError] and leaves the store as it
    was. *)
Theorem check_ready_outcome (st : State) :
  (relations st ≠ [] → result check_ready st = Ok tt) ∧
  (relations st = [] →
     result check_ready st = Raise IndexError ∧ store check_ready st = st).
Proof.
  unfold result, store. rewrite check_ready_run.
  by destruct (relations st).
Qed.

(** C7: after one run of [check_ready], a second run in the same relation
    data leaves the ready flag and the changed flag as the first run left
    them (the whole store in fact), and ends the same way. *)
Theorem check_ready_idempotent (st : State) :
  let st1 := store check_ready st in
  let st2 := store check_ready st1 in
  is_flag_set (flag_name st "ready") st2 = is_flag_set (flag_name st "ready") st1 ∧
  is_flag_set (flag_name st "changed") st2 = is_flag_set (flag_name st "changed") st1 ∧
  st2 = st1 ∧
  result check_ready st1 = result check_ready st.
Proof.
  simpl. rewrite check_ready_store_idem. split_and!; [done|done|done|].
  unfold result, store. rewrite !check_ready_run.
  destruct (relations st) as [|r rs] eqn:Hrs; simpl; by rewrite Hrs.
Qed.

(** C9: [remove_ready] touches the ready flag only: relation data, the
    endpoint, the changed flag, the joined flag and every other flag stay as
    they were. *)
Theorem remove_ready_frame (st : State) :
  let st' := store remove_ready st in
  relations st' = relations st ∧
  endpoint_name st' = endpoint_name st ∧
  is_flag_set (flag_name st "changed") st' = is_flag_set (flag_name st "changed") st ∧
  is_flag_set (flag_name st "joined") st' = is_flag_set (flag_name st "joined") st ∧
  ∀ f, f ≠ flag_name st "ready" → is_flag_set f st' = is_flag_set f st.
Proof.
  pose proof (ready_changed_ne st). pose proof (ready_joined_ne st).
  unfold store. rewrite remove_ready_run. simpl.
  split_and!; [done|done|..]; [| |intros f Hf];
    rewrite is_flag_set_with_flags; unfold is_flag_set;
    apply bool_decide_ext; set_solver.
Qed.

(** ** The reactive loop *)

Lemma dispatch_orders (hs : list Handler) :
  hs ≡ₚ [CheckReady; RemoveReady] →
  hs = [CheckReady; RemoveReady] ∨ hs = [RemoveReady; CheckReady].
Proof. intros H. symmetry in H. by apply Permutation_length_2_inv in H. Qed.

(** Case analysis on the decorators and on the data read by a dispatch. *)
Ltac dispatch_cases H :=
  repeat first
    [ progress rewrite ?check_ready_run, ?remove_ready_run in H
    | progress cbn [negb with_flags flags relations endpoint_name flag_name] in H
    | match type of H with
      | context [bool_decide ?P] =>
          let Hd := fresh "Hd" in
          destruct (bool_decide P) eqn:Hd;
          [apply bool_decide_eq_true in Hd | apply bool_decide_eq_false in Hd]
      | context [match relations ?s with _ => _ end] =>
          let Hrs := fresh "Hrs" in destruct (relations s) eqn:Hrs
      | context [py_bool ?v] =>
          let Hb := fresh "Hb" in destruct (py_bool v) eqn:Hb
      end ].

Lemma dispatch_settles (hs : list Handler) (st st' : State) :
  hs ≡ₚ [CheckReady; RemoveReady] →
  (flag_name st "changed" ∈ flags st → flag_name st "joined" ∈ flags st) →
  run_handlers hs st = (Ok tt, st') →
  endpoint_name st' = endpoint_name st ∧ settled st'.
Proof.
  intros Hhs Hpre Hrun.
  pose proof (ready_changed_ne st) as Hrc.
  pose proof (ready_joined_ne st) as Hrj.
  pose proof (changed_joined_ne st) as Hcj.
  unfold settled.
  destruct (dispatch_orders hs Hhs) as [Ho | Ho]; subst hs;
    cbn [run_handlers] in Hrun;
    cbv [mbind M_bind bind mret M_ret ret run_if guard invoke] in Hrun;
    cbv [when_changed when_not_joined is_flag_set] in Hrun;
    dispatch_cases Hrun; simplify_eq;
    cbn [with_flags flags relations endpoint_name flag_name] in *;
    (split; [done|]); set_solver.
Qed.

Lemma event_keeps_order (ev : Event) (st : State) :
  settled st →
  event_enabled ev st = true →
  endpoint_name (apply_event ev st) = endpoint_name st ∧
  (flag_name st "changed" ∈ flags (apply_event ev st) →
   flag_name st "joined" ∈ flags (apply_event ev st)).
Proof.
  intros [Hc Hj] Hen. pose proof (changed_joined_ne st) as Hcj.
  destruct ev as [rs|rs|rs]; (split; [done|]); simpl in *.
  - set_solver.
  - apply andb_prop in Hen as [_ Hjoined].
    apply bool_decide_eq_true in Hjoined. set_solver.
  - set_solver.
Qed.

Lemma step_settled (st st' : State) :
  settled st → step st st' →
  endpoint_name st' = endpoint_name st ∧ settled st'.
Proof.
  intros Hs Hstep. destruct Hstep as [ev hs st st' Hen Hhs Hrun].
  destruct (event_keeps_order ev st Hs Hen) as [Hep Hpre].
  destruct (dispatch_settles hs (apply_event ev st) st' Hhs) as [Hep' Hs'];
    [|done|].
  - unfold flag_name in *. by rewrite Hep.
  - split; [congruence|done].
Qed.

Lemma reachable_settled (ep : string) (st : State) :
  reachable ep st → endpoint_name st = ep ∧ settled st.
Proof.
  unfold reachable. revert st.
  apply (rtc_ind_r (λ st, endpoint_name st = ep ∧ settled st)).
  - split; [done|]. unfold settled. simpl. set_solver.
  - intros st st' _ Hstep [Hep Hs].
    destruct (step_settled st st' Hs Hstep) as [Hep' Hs'].
    split; [congruence|done].
Qed.

(** From a settled state every enabled signal is followed by a dispatch that
    returns: no handler raises, in either order. *)
Lemma hook_returns (ev : Event) (hs : list Handler) (st : State) :
  settled st →
  event_enabled ev st = true →
  hs ≡ₚ [CheckReady; RemoveReady] →
  fst (run_handlers hs (apply_event ev st)) = Ok tt.
Proof.
  intros [Hc Hj] Hen Hhs.
  pose proof (changed_joined_ne st) as Hcj.
  destruct (run_handlers hs (apply_event ev st)) as [o s] eqn:Hrun.
  destruct o as [[]|e]; [done|exfalso].
  destruct (dispatch_orders hs Hhs) as [Ho | Ho]; subst hs;
    cbn [run_handlers] in Hrun;
    cbv [mbind M_bind bind mret M_ret ret run_if guard invoke] in Hrun;
    cbv [when_changed when_not_joined is_flag_set] in Hrun;
    destruct ev as [rs|rs|rs]; cbn [apply_event] in Hrun;
    dispatch_cases Hrun; simplify_eq;
    cbn [event_enabled with_relations with_flags flags relations
         endpoint_name flag_name] in *;
    try (apply andb_prop in Hen as [Hen _]);
    try (apply bool_decide_eq_true in Hen; done);
    set_solver.
Qed.

(** A settled state is at rest: one more dispatch, in either order, leaves
    it as it is. *)
Lemma settled_at_rest (hs : list Handler) (st : State) :
  settled st →
  hs ≡ₚ [CheckReady; RemoveReady] →
  run_handlers hs st = (Ok tt, st).
Proof.
  intros [Hc Hj] Hhs.
  assert (Hclear : flag_name st "joined" ∉ flags st →
                   with_flags (flags st ∖ {[flag_name st "ready"]}) st = st).
  { intros Hn. destruct st as [ep rs fl]. unfold with_flags. simpl in *.
    f_equal. specialize (Hj Hn). set_solver. }
  assert (Hrest : run_if CheckReady st = (Ok tt, st)).
  { cbv [run_if guard when_changed is_flag_set].
    by rewrite (bool_decide_eq_false_2 _ Hc). }
  assert (Hrem : run_if RemoveReady st = (Ok tt, st)).
  { cbv [run_if guard invoke when_not_joined is_flag_set].
    destruct (bool_decide (flag_name st "joined" ∈ flags st)) eqn:Hd; [done|].
    apply bool_decide_eq_false in Hd.
    cbn [negb]. by rewrite remove_ready_run, Hclear. }
  destruct (dispatch_orders hs Hhs) as [Ho | Ho]; subst hs;
    cbn [run_handlers]; cbv [mbind M_bind bind mret M_ret ret].
  - by rewrite Hrest, Hrem.
  - by rewrite Hrem, Hrest.
Qed.

Lemma hook_step (ev : Event) (hs : list Handler) (st : State) :
  event_enabled ev st = true →
  hs ≡ₚ [CheckReady; RemoveReady] →
  fst (run_handlers hs (apply_event ev st)) = Ok tt →
  step st (hook ev hs st).
Proof.
  intros Hen Hhs Hok. apply (step_hook ev hs); [done|done|].
  unfold hook. destruct (run_handlers hs (apply_event ev st)) as [o s].
  simpl in *. by subst.
Qed.

Lemma trace_broken_reachable : reachable "openstack" trace_broken.
Proof.
  unfold reachable.
  apply (rtc_l _ _ trace_joined);
    [apply hook_step; [by vm_compute|done|by vm_compute]|].
  apply (rtc_l _ _ trace_ready);
    [apply hook_step; [by vm_compute|done|by vm_compute]|].
  apply rtc_once, hook_step; [by vm_compute| |by vm_compute].
  apply Permutation_swap.
Qed.

(** The life cycle does reach readiness, and between the break signal and
    the dispatch that follows it the ready flag is still set although the
    joined flag is gone: the rule is enforced by the dispatch, not by the
    signal. *)
Lemma trace_ready_then_broken :
  is_flag_set "endpoint.openstack.joined" trace_ready = true ∧
  is_flag_set "endpoint.openstack.ready" trace_ready = true ∧
  is_flag_set "endpoint.openstack.joined"
    (apply_event (RelationBroken [rel_tok]) trace_ready) = false ∧
  is_flag_set "endpoint.openstack.ready"
    (apply_event (RelationBroken [rel_tok]) trace_ready) = true ∧
  is_flag_set "endpoint.openstack.ready" trace_broken = false.
Proof. by vm_compute. Qed.

(** C4: in every state reachable from the start by steps (an external
    signal followed by the dispatch of the handlers to completion), if the
    joined flag is not set then the ready flag is not set. *)
Theorem unjoined_is_not_ready (ep : string) (st : State) :
  reachable ep st →
  is_flag_set (flag_name st "joined") st = false →
  is_flag_set (flag_name st "ready") st = false.
Proof.
  intros Hr Hj. destruct (reachable_settled ep st Hr) as [_ [_ Hs]].
  apply bool_decide_eq_false in Hj. apply bool_decide_eq_false. auto.
Qed.

Lemma unjoined_is_not_ready_witness :
  reachable "openstack" trace_broken ∧
  is_flag_set (flag_name trace_broken "joined") trace_broken = false ∧
  is_flag_set (flag_name trace_broken "ready") trace_broken = false.
Proof.
  split; [exact trace_broken_reachable|].
  split; [vm_compute; reflexivity|].
  apply (unjoined_is_not_ready "openstack" trace_broken).
  - exact trace_broken_reachable.
  - vm_compute; reflexivity.
Defined.

(** ** Beyond the dispatch: direct calls and compositions *)



(** X3: once [check_ready] has returned, the ready flag tells the truth
    about the data: it is set exactly when [credentials], read in the
    resulting state, returns a truthy value. *)
Theorem ready_flag_sound (st : State) :
  result check_ready st = Ok tt →
  let st' := store check_ready st in
  is_flag_set (flag_name st' "ready") st' = true ↔
  ∃ c, result credentials st' = Ok c ∧ py_bool c = true.
Proof.
  pose proof (ready_changed_ne st) as Hne.
  unfold result, store. rewrite check_ready_run.
  destruct (relations st) as [|r rs] eqn:Hrs; [done|]. intros _. simpl.
  rewrite credentials_run. simpl. rewrite Hrs. unfold is_flag_set. simpl.
  rewrite bool_decide_eq_true.
  destruct (py_bool (getitem (received (joined_units r)) "credentials"))
    eqn:Hb; simpl.
  - split; [by eauto|]. set_solver.
  - split; [set_solver|]. intros (c & [= <-] & Hc). congruence.
Qed.

Lemma ready_flag_sound_witness :
  result check_ready st_changed_tok = Ok tt ∧
  (is_flag_set (flag_name (store check_ready st_changed_tok) "ready")
     (store check_ready st_changed_tok) = true ↔
   ∃ c, result credentials (store check_ready st_changed_tok) = Ok c ∧
        py_bool c = true).
Proof.
  split; [reflexivity|].
  apply (ready_flag_sound st_changed_tok). reflexivity.
Defined.

Lemma framed_refl (st : State) : framed st st.
Proof. unfold framed. set_solver. Qed.

Lemma framed_trans (st1 st2 st3 : State) :
  framed st1 st2 → framed st2 st3 → framed st1 st3.
Proof.
  unfold framed, flag_name.
  intros (Hep & Hrs & Hup & Hlo) (Hep' & Hrs' & Hup' & Hlo').
  rewrite Hep in *. split_and!; [congruence|congruence|set_solver|set_solver].
Qed.

Lemma invoke_framed (h : Handler) (st : State) :
  framed st (store (invoke h) st).
Proof.
  unfold framed, store. destruct h; cbn [invoke].
  - rewrite check_ready_run. destruct (relations st) eqn:Hrs; simpl.
    + set_solver.
    + rewrite Hrs. destruct (py_bool _); set_solver.
  - rewrite remove_ready_run. simpl. set_solver.
Qed.

Lemma call_all_cons (h : Handler) (hs : list Handler) (st : State) :
  store (call_all (h :: hs)) st =
    match result (invoke h) st with
    | Ok _ => store (call_all hs) (store (invoke h) st)
    | Raise _ => store (invoke h) st
    end.
Proof.
  unfold store, result. cbn [call_all]. cbv [mbind M_bind bind].
  by destruct (invoke h st) as [[[]|e] s].
Qed.

Lemma call_all_framed (hs : list Handler) (st : State) :
  framed st (store (call_all hs) st).
Proof.
  revert st. induction hs as [|h hs IH]; intros st.
  - apply framed_refl.
  - rewrite call_all_cons. destruct (result (invoke h) st).
    + eapply framed_trans; [apply invoke_framed|apply IH].
    + apply invoke_framed.
Qed.

(** X4: whatever handlers are called, in whatever order and however the
    sequence ends, the joined flag, the relations and every flag other than
    ready and changed are as before, and the changed flag is never set by
    them: it is set afterwards only if it was set before. *)
Theorem handlers_frame (hs : list Handler) (st : State) :
  let st' := store (call_all hs) st in
  relations st' = relations st ∧
  endpoint_name st' = endpoint_name st ∧
  is_flag_set (flag_name st "joined") st' = is_flag_set (flag_name st "joined") st ∧
  (is_flag_set (flag_name st "changed") st' = true →
   is_flag_set (flag_name st "changed") st = true) ∧
  ∀ f, f ≠ flag_name st "ready" → f ≠ flag_name st "changed" →
       is_flag_set f st' = is_flag_set f st.
Proof.
  pose proof (ready_changed_ne st) as Hrc.
  pose proof (ready_joined_ne st) as Hrj.
  pose proof (changed_joined_ne st) as Hcj.
  destruct (call_all_framed hs st) as (Hep & Hrs & Hup & Hlo). simpl.
  unfold is_flag_set. split_and!; [done|done|..].
  - apply bool_decide_ext. set_solver.
  - rewrite !bool_decide_eq_true. set_solver.
  - intros f Hr Hc. apply bool_decide_ext. set_solver.
Qed.

Lemma is_ready_same_relations (st st' : State) :
  relations st' = relations st → result is_ready st' = result is_ready st.
Proof.
  intros H. unfold result. rewrite !is_ready_run, H.
  by destruct (relations st).
Qed.

Lemma invoke_honest (h : Handler) (st : State) :
  honest st → honest (store (invoke h) st).
Proof.
  pose proof (ready_changed_ne st) as Hne.
  unfold honest, store, result. intros Hst. destruct h; cbn [invoke].
  - rewrite check_ready_run. destruct (relations st) as [|r rs] eqn:Hrs.
    + done.
    + simpl. rewrite is_ready_run. simpl. rewrite Hrs.
      destruct (py_bool _); [done|set_solver].
  - rewrite remove_ready_run. simpl. set_solver.
Qed.

Lemma call_all_honest (hs : list Handler) (st : State) :
  honest st → honest (store (call_all hs) st).
Proof.
  revert st. induction hs as [|h hs IH]; intros st Hst; [done|].
  rewrite call_all_cons. destruct (result (invoke h) st).
  - by apply IH, invoke_honest.
  - by apply invoke_honest.
Qed.

(** X5: the handlers never set the ready flag without credentials: if the
    flag is not set before a sequence of handler calls and is set after it,
    then [is_ready] returns true. *)
Theorem ready_only_with_credentials (hs : list Handler) (st : State) :
  is_flag_set (flag_name st "ready") st = false →
  is_flag_set (flag_name st "ready") (store (call_all hs) st) = true →
  result is_ready st = Ok true.
Proof.
  intros Hbefore Hafter.
  apply bool_decide_eq_false in Hbefore. apply bool_decide_eq_true in Hafter.
  destruct (call_all_framed hs st) as (Hep & Hrs & _ & _).
  rewrite <- (is_ready_same_relations st (store (call_all hs) st) Hrs).
  apply call_all_honest; [by intros ?|].
  unfold flag_name in *. by rewrite Hep.
Qed.

Lemma ready_only_with_credentials_witness :
  is_flag_set (flag_name st_changed_tok "ready") st_changed_tok = false ∧
  is_flag_set (flag_name st_changed_tok "ready")
    (store (call_all [RemoveReady; CheckReady]) st_changed_tok) = true ∧
  result is_ready st_changed_tok = Ok true.
Proof.
  split; [reflexivity|]. split; [reflexivity|].
  apply (ready_only_with_credentials [RemoveReady; CheckReady] st_changed_tok);
    reflexivity.
Defined.

Lemma check_ready_run_with_flags (fl : gset string) (st : State) :
  check_ready (with_flags fl st) =
    match relations st with
    | [] => (Raise IndexError, with_flags fl st)
    | r :: _ =>
        let fl' :=
          if py_bool (getitem (received (joined_units r)) "credentials")
          then {[flag_name st "ready"]} ∪ fl
          else fl ∖ {[flag_name st "ready"]} in
        (Ok tt, with_flags (fl' ∖ {[flag_name st "changed"]}) st)
    end.
Proof.
  rewrite check_ready_run. cbn [relations with_flags].
  by destruct (relations st).
Qed.

Lemma with_flags_twice (fl fl' : gset string) (st : State) :
  with_flags fl' (with_flags fl st) = with_flags fl' st.
Proof. done. Qed.

Lemma with_flags_eq (fl fl' : gset string) (st : State) :
  with_flags fl st = with_flags fl' st ↔ fl = fl'.
Proof.
  split; [|by intros ->]. intros H. by apply (f_equal flags) in H.
Qed.

(** X6: with a relation, [check_ready] decides the ready flag afresh: a
    [remove_ready] just before it makes no difference to the resulting
    store. *)
Theorem check_ready_absorbs_remove_ready (st : State) :
  relations st ≠ [] →
  store (remove_ready;; check_ready) st = store check_ready st.
Proof.
  intros Hrel. pose proof (ready_changed_ne st) as Hne.
  unfold store. cbv [mbind M_bind bind]. rewrite remove_ready_run.
  rewrite check_ready_run_with_flags, check_ready_run.
  destruct (relations st) as [|r rs] eqn:Hrs; [done|].
  clear Hrel Hrs. cbn [snd]. apply with_flags_eq.
  destruct (py_bool _); apply set_eq; intros x;
    destruct (decide (x = flag_name st "ready")); set_solver.
Qed.

Lemma check_ready_absorbs_remove_ready_witness :
  relations st_stale_ready ≠ [] ∧
  store (remove_ready;; check_ready) st_stale_ready =
    store check_ready st_stale_ready.
Proof.
  split; [discriminate|].
  apply (check_ready_absorbs_remove_ready st_stale_ready). discriminate.
Defined.

(** X7: with a relation, the order of the two handlers matters exactly when
    [is_ready] is true: calling [check_ready] then [remove_ready] gives the
    same store as the other order if and only if [is_ready] returns
    false. *)
Theorem handlers_commute_iff (st : State) :
  relations st ≠ [] →
  store (check_ready;; remove_ready) st = store (remove_ready;; check_ready) st ↔
  result is_ready st = Ok false.
Proof.
  intros Hrel. pose proof (ready_changed_ne st) as Hne.
  unfold store, result. cbv [mbind M_bind bind].
  rewrite is_ready_run, remove_ready_run, check_ready_run_with_flags,
    check_ready_run.
  destruct (relations st) as [|r rs] eqn:Hrs; [done|]. clear Hrel.
  cbn [fst snd]. rewrite remove_ready_run.
  cbn [snd flags with_flags endpoint_name relations].
  rewrite flag_name_with_flags, with_flags_twice, with_flags_eq.
  destruct (py_bool _).
  - split; [|done]. intros Heq. exfalso.
    assert (flag_name st "ready" ∈
            ({[flag_name st "ready"]} ∪ flags st ∖ {[flag_name st "ready"]})
              ∖ {[flag_name st "changed"]}) as Hin by set_solver.
    rewrite <- Heq in Hin. set_solver.
  - split; [done|]. intros _. set_solver.
Qed.

Lemma handlers_commute_iff_witness :
  relations st_changed_tok ≠ [] ∧
  (store (check_ready;; remove_ready) st_changed_tok =
     store (remove_ready;; check_ready) st_changed_tok ↔
   result is_ready st_changed_tok = Ok false).
Proof.
  split; [discriminate|].
  apply (handlers_commute_iff st_changed_tok). discriminate.
Defined.

(** X8: the handlers never change what the accessors see: after any
    sequence of handler calls, [credentials], [is_ready] and [_to_publish]
    return or raise exactly as before it. *)
Theorem handlers_keep_accessors (hs : list Handler) (st : State) :
  let st' := store (call_all hs) st in
  result credentials st' = result credentials st ∧
  result is_ready st' = result is_ready st ∧
  result _to_publish st' = result _to_publish st.
Proof.
  destruct (call_all_framed hs st) as (_ & Hrs & _ & _). simpl.
  split_and!.
  - unfold result. rewrite !credentials_run, Hrs. by destruct (relations st).
  - by apply is_ready_same_relations.
  - unfold result, _to_publish.
    cbv [mbind M_bind bind get_relations py_index].
    rewrite Hrs. by destruct (relations st).
Qed.
